(** * Physical Therapy AR: exercise evaluation and repetition counting

    A shallow embedding of [Physical Therapy AR.py]:
    - [calculate_angle], the angle at a vertex of three 2-D points;
    - the bounded [angle_history] deque created in [main];
    - [verify_exercise], the per-exercise rule set;
    - the repetition toggle and the exercise switch of the loop of [main].

    Number model.  The program computes on IEEE doubles (numpy float64).
    They are idealised here as real numbers: [np.arctan2] is the
    two-argument arctangent on [R], [np.pi] is [PI], sums and quotients
    are exact.  Rounding, infinities and NaN are outside the model. *)

From Stdlib Require Import Reals Lra Lia String Bool Arith List.
Import ListNotations.

Open Scope R_scope.

(** ** Angle calculator *)

(** A point is the two-element list [[x, y]] the callers build; index 0
    is the first component and index 1 the second. *)
Definition point : Type := (R * R)%type.

(** [np.arctan2 y x] on real arguments: the angle in (-PI, PI] of the
    vector (x, y), with the value 0 at the origin. *)
Definition arctan2 (y x : R) : R :=
  if Rlt_dec 0 x then atan (y / x)
  else if Rlt_dec x 0 then
    if Rle_dec 0 y then atan (y / x) + PI else atan (y / x) - PI
  else
    if Rlt_dec 0 y then PI / 2
    else if Rlt_dec y 0 then - (PI / 2)
    else 0.

Definition calculate_angle (a b c : point) : R :=
  let radians :=
    arctan2 (snd c - snd b) (fst c - fst b)
    - arctan2 (snd a - snd b) (fst a - fst b) in
  let angle := Rabs (radians * 180 / PI) in
  if Rgt_dec angle 180 then 360 - angle else angle.

(** ** Smoothing history *)

(** An entry of [angle_history]: a bare number (squat) or a 2-tuple
    (arm raise, shoulder shrug). *)
Inductive measurement : Type :=
| Scalar (v : R)
| Pair (l r : R).

(** The only deque of the program is [deque(maxlen=10)]; its contents are
    kept oldest first. *)
Definition maxlen : nat := 10.

Definition deque (A : Type) : Type := list A.

Definition new_deque {A : Type} : deque A := [].

(** [d.append(m)] on a deque with [maxlen]: a full deque drops its
    leftmost entry to make room. *)
Definition deque_append {A : Type} (d : deque A) (m : A) : deque A :=
  if (maxlen <=? length d)%nat then tl d ++ [m] else d ++ [m].

Definition deque_popleft {A : Type} (d : deque A) : deque A := tl d.

Definition deque_clear {A : Type} (d : deque A) : deque A := [].

(** The three statements every measuring branch runs:
    [angle_history.append(m)], then
    [if len(angle_history) > 10: angle_history.popleft()]. *)
Definition push {A : Type} (d : deque A) (m : A) : deque A :=
  let d1 := deque_append d m in
  if (10 <? length d1)%nat then deque_popleft d1 else d1.

Definition push_all {A : Type} (d : deque A) (ms : list A) : deque A :=
  fold_left push ms d.

(** ** Exceptions and results *)

Inductive exn : Type :=
| ZeroDivisionError
| IndexError
| ShapeError.  (* raised on a history entry whose shape is not the one
                  the branch expects: a tuple where a number is summed,
                  a number where a tuple is indexed *)

Inductive result (A : Type) : Type :=
| Ok (v : A)
| Raise (e : exn).
Arguments Ok {A} v.
Arguments Raise {A} e.

Definition bind {A B : Type} (r : result A) (k : A -> result B) : result B :=
  match r with
  | Ok v => k v
  | Raise e => Raise e
  end.

Notation "x <- c ;; k" := (bind c (fun x => k))
  (at level 61, c at next level, right associativity).

(** [a[0]] and [a[1]] on a history entry; a bare number cannot be
    indexed. *)
Definition item0 (m : measurement) : result R :=
  match m with Pair l _ => Ok l | Scalar _ => Raise ShapeError end.

Definition item1 (m : measurement) : result R :=
  match m with Pair _ r => Ok r | Scalar _ => Raise ShapeError end.

(** The entry itself as a summand, as [sum(angle_history)] uses it. *)
Definition as_number (m : measurement) : result R :=
  match m with Scalar v => Ok v | Pair _ _ => Raise ShapeError end.

(** [[f(a) for a in angle_history]] *)
Fixpoint comprehension (f : measurement -> result R)
    (d : deque measurement) : result (list R) :=
  match d with
  | [] => Ok []
  | m :: d' => v <- f m ;; vs <- comprehension f d' ;; Ok (v :: vs)
  end.

(** [sum(xs)]: left to right from 0. *)
Definition sum (xs : list R) : R := fold_left Rplus xs 0.

(** [total / n] with [n] a length: division by zero raises. *)
Definition divide (total : R) (n : nat) : result R :=
  match n with
  | O => Raise ZeroDivisionError
  | S _ => Ok (total / INR n)
  end.

(** [sum([f(a) for a in angle_history]) / len(angle_history)] *)
Definition average (f : measurement -> result R) (d : deque measurement)
  : result R :=
  xs <- comprehension f d ;; divide (sum xs) (length d).

(** ** Landmarks *)

(** The members of [mp_pose.PoseLandmark] the program reads. *)
Inductive PoseLandmark : Type :=
| LEFT_EAR | RIGHT_EAR
| LEFT_SHOULDER | RIGHT_SHOULDER
| LEFT_ELBOW | RIGHT_ELBOW
| LEFT_WRIST | RIGHT_WRIST
| LEFT_HIP | LEFT_KNEE | LEFT_ANKLE.

Record landmark : Type := { x : R; y : R }.

(** [results.pose_landmarks.landmark], indexed by landmark. *)
Definition landmark_list : Type := PoseLandmark -> landmark.

(** What [analyze_pose] returns: [pose_landmarks] is [None] when no pose
    was found. *)
Record pose_results : Type := { pose_landmarks : option landmark_list }.

Definition pose_found (landmarks : landmark_list) : pose_results :=
  {| pose_landmarks := Some landmarks |}.

Definition no_pose : pose_results := {| pose_landmarks := None |}.

Definition xy (landmarks : landmark_list) (p : PoseLandmark) : point :=
  (x (landmarks p), y (landmarks p)).

(** ** Comparisons on numbers, as booleans *)

Definition gt (a b : R) : bool := if Rgt_dec a b then true else false.
Definition lt (a b : R) : bool := if Rlt_dec a b then true else false.
Definition ge (a b : R) : bool := if Rge_dec a b then true else false.

(** ** Exercise rule set *)

Definition exercises : list string :=
  ["arm_raise"; "squat"; "leg_raise"; "shoulder_shrug"; "knee_extension"]%string.

(** What one call of [verify_exercise] returns: [is_correct], [feedback]
    and the (same, mutated) [angle_history]. *)
Definition verdict : Type := (bool * string * deque measurement)%type.

Definition is_correct (v : verdict) : bool := fst (fst v).
Definition feedback (v : verdict) : string := snd (fst v).
Definition history (v : verdict) : deque measurement := snd v.

Section Rules.

(** [format_fixed p v] is the text of [f"{v:.pf}"]: [v] in fixed-point
    notation with [p] digits after the point. *)
Variable format_fixed : nat -> R -> string.

Definition verify_exercise (results : pose_results) (exercise_type : string)
    (angle_history : deque measurement) : result verdict :=
  match pose_landmarks results with
  | None => Ok (false, "No pose detected"%string, angle_history)
  | Some landmarks =>
    if (exercise_type =? "arm_raise")%string then
      let left_shoulder := xy landmarks LEFT_SHOULDER in
      let left_elbow := xy landmarks LEFT_ELBOW in
      let left_wrist := xy landmarks LEFT_WRIST in
      let right_shoulder := xy landmarks RIGHT_SHOULDER in
      let right_elbow := xy landmarks RIGHT_ELBOW in
      let right_wrist := xy landmarks RIGHT_WRIST in
      let left_angle := calculate_angle left_shoulder left_elbow left_wrist in
      let right_angle :=
        calculate_angle right_shoulder right_elbow right_wrist in
      let angle_history := push angle_history (Pair left_angle right_angle) in
      avg_left <- average item0 angle_history ;;
      avg_right <- average item1 angle_history ;;
      if gt avg_left 160 && gt avg_right 160 then
        Ok (true, "Arms raised correctly"%string, angle_history)
      else
        Ok (false,
            ("Raise both arms higher (L: " ++ format_fixed 1 avg_left
             ++ ", R: " ++ format_fixed 1 avg_right ++ ")")%string,
            angle_history)
    else if (exercise_type =? "squat")%string then
      let left_hip := xy landmarks LEFT_HIP in
      let left_knee := xy landmarks LEFT_KNEE in
      let left_ankle := xy landmarks LEFT_ANKLE in
      let knee_angle := calculate_angle left_hip left_knee left_ankle in
      let angle_history := push angle_history (Scalar knee_angle) in
      avg_angle <- average as_number angle_history ;;
      if lt 80 avg_angle && lt avg_angle 100 then
        Ok (true,
            ("Good squat form (Angle: " ++ format_fixed 1 avg_angle
             ++ ")")%string,
            angle_history)
      else if ge avg_angle 100 then
        Ok (false,
            ("Squat lower (Angle: " ++ format_fixed 1 avg_angle
             ++ ")")%string,
            angle_history)
      else
        Ok (false,
            ("Don't squat too low (Angle: " ++ format_fixed 1 avg_angle
             ++ ")")%string,
            angle_history)
    else if (exercise_type =? "shoulder_shrug")%string then
      let left_shoulder := y (landmarks LEFT_SHOULDER) in
      let right_shoulder := y (landmarks RIGHT_SHOULDER) in
      let left_ear := y (landmarks LEFT_EAR) in
      let right_ear := y (landmarks RIGHT_EAR) in
      let left_distance := left_ear - left_shoulder in
      let right_distance := right_ear - right_shoulder in
      let angle_history :=
        push angle_history (Pair left_distance right_distance) in
      avg_left <- average item0 angle_history ;;
      avg_right <- average item1 angle_history ;;
      if lt avg_left (15 / 100) && lt avg_right (15 / 100) then
        Ok (true, "Good shoulder shrug"%string, angle_history)
      else
        Ok (false,
            ("Raise shoulders higher (L: " ++ format_fixed 2 avg_left
             ++ ", R: " ++ format_fixed 2 avg_right ++ ")")%string,
            angle_history)
    else if (exercise_type =? "leg_raise")%string
            || (exercise_type =? "knee_extension")%string then
      Ok (false,
          ("Unable to detect " ++ exercise_type ++ " properly")%string,
          angle_history)
    else
      Ok (false, "Unknown exercise type"%string, angle_history)
  end.

(** ** The loop of [main] *)

(** The variables [main] carries from one iteration to the next. *)
Record session : Type := {
  current_exercise : nat;
  rep_count : nat;
  exercise_state : bool;
  angle_history : deque measurement
}.

(** The four assignments before the loop. *)
Definition initial_session : session :=
  {| current_exercise := 0;
     rep_count := 0;
     exercise_state := false;
     angle_history := new_deque |}.

(** The "Count reps" statement, on the two variables it touches. *)
Definition count_reps (correct : bool) (st : nat * bool) : nat * bool :=
  let '(reps, state) := st in
  if correct then
    if negb state then (reps, true)
    else if state then (S reps, false)
    else (reps, state)
  else (reps, state).

Definition count_all (verdicts : list bool) (st : nat * bool) : nat * bool :=
  fold_left (fun acc v => count_reps v acc) verdicts st.

(** The branch taken on the key 'n'. *)
Definition switch_exercise (s : session) : session :=
  {| current_exercise :=
       ((current_exercise s + 1) mod length exercises)%nat;
     rep_count := 0;
     exercise_state := exercise_state s;
     angle_history := deque_clear (angle_history s) |}.

(** [cv2.waitKey(1) & 0xFF] as far as the loop tells keys apart. *)
Inductive key : Type := KeyQ | KeyN | KeyOther.

(** What one iteration receives: the frame read (here already analysed;
    [None] when [cap.read()] fails) and the key pressed. *)
Record tick : Type := { frame : option pose_results; pressed : key }.

(** [exercises[i]] *)
Definition exercise_at (i : nat) : result string :=
  match nth_error exercises i with
  | Some e => Ok e
  | None => Raise IndexError
  end.

(** How a pass through the body of [while True] ends: the loop goes on,
    or leaves by [break]. *)
Inductive outcome : Type :=
| Continue (s : session)
| Break (s : session).

Definition iteration (t : tick) (s : session) : result outcome :=
  match frame t with
  | None => Ok (Break s)
  | Some results =>
    e <- exercise_at (current_exercise s) ;;
    v <- verify_exercise results e (angle_history s) ;;
    let '(reps, state) :=
      count_reps (is_correct v) (rep_count s, exercise_state s) in
    let s1 := {| current_exercise := current_exercise s;
                 rep_count := reps;
                 exercise_state := state;
                 angle_history := history v |} in
    match pressed t with
    | KeyQ => Ok (Break s1)
    | KeyN => Ok (Continue (switch_exercise s1))
    | KeyOther => Ok (Continue s1)
    end
  end.

(** The loop over the ticks that arrive; it stops at the first [break]. *)
Fixpoint run (ts : list tick) (s : session) : result session :=
  match ts with
  | [] => Ok s
  | t :: ts' =>
    r <- iteration t s ;;
    match r with
    | Break s' => Ok s'
    | Continue s' => run ts' s'
    end
  end.

End Rules.

(** ** Vocabulary of the statements *)

(** The arithmetic mean of a list of numbers, as the rule set computes it:
    the left-to-right sum over the number of entries. *)
Definition mean (xs : list R) : R := sum xs / INR (length xs).

(** A 2-tuple of numbers as a history entry. *)
Definition pair_entry (p : R * R) : measurement := Pair (fst p) (snd p).

(** The measurement each rule takes from the landmarks of a frame. *)
Definition knee_angle_of (landmarks : landmark_list) : R :=
  calculate_angle (xy landmarks LEFT_HIP) (xy landmarks LEFT_KNEE)
                  (xy landmarks LEFT_ANKLE).

Definition elbow_angles_of (landmarks : landmark_list) : R * R :=
  (calculate_angle (xy landmarks LEFT_SHOULDER) (xy landmarks LEFT_ELBOW)
                   (xy landmarks LEFT_WRIST),
   calculate_angle (xy landmarks RIGHT_SHOULDER) (xy landmarks RIGHT_ELBOW)
                   (xy landmarks RIGHT_WRIST)).

Definition ear_distances_of (landmarks : landmark_list) : R * R :=
  (y (landmarks LEFT_EAR) - y (landmarks LEFT_SHOULDER),
   y (landmarks RIGHT_EAR) - y (landmarks RIGHT_SHOULDER)).

(** A pose with both arms stretched out straight and the left knee bent
    at a right angle. *)
Definition sample_landmarks : landmark_list :=
  fun p =>
    match p with
    | LEFT_SHOULDER | RIGHT_SHOULDER => {| x := -1; y := 0 |}
    | LEFT_WRIST | RIGHT_WRIST => {| x := 1; y := 0 |}
    | LEFT_HIP => {| x := 1; y := 0 |}
    | LEFT_ANKLE => {| x := 0; y := 1 |}
    | _ => {| x := 0; y := 0 |}
    end.

(** A formatter that prints nothing, for closed examples. *)
Definition format_blank (p : nat) (v : R) : string := EmptyString.

(** A session on the last exercise, three repetitions counted, the
    counter armed and one measurement in the history. *)
Definition armed_session : session :=
  {| current_exercise := 4;
     rep_count := 3;
     exercise_state := true;
     angle_history := [Scalar 90] |}.

(** The shape of the entries each exercise leaves in the history: numbers
    for squat, pairs for arm raise and shoulder shrug, nothing for the
    kinds that take no measurement. *)
Definition well_shaped (e : string) (d : deque measurement) : Prop :=
  if (e =? "squat")%string then exists vs, d = map Scalar vs
  else if (e =? "arm_raise")%string || (e =? "shoulder_shrug")%string
       then exists ps, d = map pair_entry ps
  else d = [].

(** The invariant of the loop: the index names an exercise and the history
    holds entries of that exercise only. *)
Definition session_ok (s : session) : Prop :=
  exists e, nth_error exercises (current_exercise s) = Some e
            /\ well_shaped e (angle_history s).

Definition outcome_session (o : outcome) : session :=
  match o with Continue s => s | Break s => s end.

(** The point [p] after a uniform scaling by [k] about the origin and a
    translation by [t]. *)
Definition move (k : R) (t p : point) : point :=
  (k * fst p + fst t, k * snd p + snd t).

(** ** Keys and instructions *)

(** [key = cv2.waitKey(1) & 0xFF] followed by the comparisons with
    [ord('q')] = 113 and [ord('n')] = 110. *)
Definition key_of_code (code : Z) : key :=
  let key := Z.land code 255 in
  if (key =? 113)%Z then KeyQ
  else if (key =? 110)%Z then KeyN
  else KeyOther.

(** The dictionary [exercise_instructions], in the order it is written. *)
Definition exercise_instructions : list (string * string) :=
  [("arm_raise",
    "Raise both arms straight out to the sides until they are parallel to the ground.");
   ("squat",
    "Stand with feet shoulder-width apart, then lower your body as if sitting back into a chair.");
   ("leg_raise",
    "Stand on one leg and raise the other leg straight out in front of you.");
   ("shoulder_shrug",
    "Raise your shoulders towards your ears, hold, then lower them back down.");
   ("knee_extension",
    "Sit on a chair, straighten one leg in front of you, then lower it back down.")
  ]%string.

(** [d[k]] on a dictionary with string keys; [None] is [KeyError]. *)
Fixpoint dict_get (k : string) (d : list (string * string)) : option string :=
  match d with
  | [] => None
  | (k', v) :: d' => if (k =? k')%string then Some v else dict_get k d'
  end.

(** [exercise_instructions[exercises[current_exercise]]]; [None] when
    either subscript raises. *)
Definition instruction_of (s : session) : option string :=
  match nth_error exercises (current_exercise s) with
  | Some e => dict_get e exercise_instructions
  | None => None
  end.

(** The number of correct verdicts in a list. *)
Definition correct_count (verdicts : list bool) : nat :=
  count_occ bool_dec verdicts true.

(** 1 for an armed counter, 0 for an idle one. *)
Definition armed_bit (state : bool) : nat := if state then 1 else 0.

(** * Properties *)

(** ** The bounded history *)

Section DequeFacts.

Context {A : Type}.
Implicit Types (d : deque A) (m : A) (ms : list A).

Lemma tl_length d : length (tl d) = (length d - 1)%nat.
Proof. destruct d; simpl; lia. Qed.

Lemma deque_append_length d m :
  length (deque_append d m)
  = if (maxlen <=? length d)%nat then Nat.max 1 (length d)
    else S (length d).
Proof.
  unfold deque_append.
  destruct (maxlen <=? length d)%nat eqn:E; rewrite length_app.
  - apply Nat.leb_le in E. unfold maxlen in E.
    rewrite tl_length. change (length [m]) with 1%nat. lia.
  - change (length [m]) with 1%nat. lia.
Qed.

Lemma push_nonempty d m : (1 <= length (push d m))%nat.
Proof.
  unfold push.
  destruct (10 <? length (deque_append d m))%nat eqn:E.
  - apply Nat.ltb_lt in E. unfold deque_popleft. rewrite tl_length. lia.
  - rewrite deque_append_length.
    destruct (maxlen <=? length d)%nat; lia.
Qed.

Lemma push_length_le d m :
  (length d <= 10)%nat -> (length (push d m) <= 10)%nat.
Proof.
  intros Hd. unfold push.
  destruct (10 <? length (deque_append d m))%nat eqn:E.
  - apply Nat.ltb_lt in E. rewrite deque_append_length in E.
    destruct (maxlen <=? length d)%nat eqn:F.
    + lia.
    + apply Nat.leb_gt in F. unfold maxlen in F. lia.
  - apply Nat.ltb_ge in E. exact E.
Qed.

(** On a deque within its bound, [push] keeps the last 10 of the entries
    followed by the new one. *)
Lemma push_window d m :
  (length d <= 10)%nat ->
  push d m = skipn (length d + 1 - 10) (d ++ [m]).
Proof.
  intros Hd. unfold push, deque_append, deque_popleft, maxlen.
  destruct (10 <=? length d)%nat eqn:E.
  - apply Nat.leb_le in E.
    assert (Hlen : length d = 10%nat) by lia.
    assert (Hfit : (10 <? length (tl d ++ [m]))%nat = false).
    { apply Nat.ltb_ge. rewrite length_app, tl_length. simpl. lia. }
    rewrite Hfit, Hlen. simpl (10 + 1 - 10)%nat.
    destruct d as [|a d']; [discriminate Hlen|]. reflexivity.
  - apply Nat.leb_gt in E.
    assert (Hfit : (10 <? length (d ++ [m]))%nat = false).
    { apply Nat.ltb_ge. rewrite length_app. simpl. lia. }
    rewrite Hfit.
    replace (length d + 1 - 10)%nat with 0%nat by lia. reflexivity.
Qed.

Lemma push_all_snoc d ms m : push_all d (ms ++ [m]) = push (push_all d ms) m.
Proof. unfold push_all. rewrite fold_left_app. reflexivity. Qed.

Lemma push_all_length_le d ms :
  (length d <= 10)%nat -> (length (push_all d ms) <= 10)%nat.
Proof.
  intros Hd. induction ms as [|m ms IH] using rev_ind.
  - exact Hd.
  - rewrite push_all_snoc. apply push_length_le, IH.
Qed.

Lemma push_all_window ms :
  push_all new_deque ms = skipn (length ms - 10) ms.
Proof.
  induction ms as [|m ms IH] using rev_ind.
  - reflexivity.
  - rewrite push_all_snoc.
    assert (Hb : (length (push_all (@new_deque A) ms) <= 10)%nat).
    { apply push_all_length_le. simpl. lia. }
    rewrite push_window by exact Hb.
    rewrite IH. rewrite length_skipn.
    replace (skipn (length ms - 10) ms ++ [m])
      with (skipn (length ms - 10) (ms ++ [m])).
    + rewrite skipn_skipn, length_app. simpl. f_equal. lia.
    + rewrite skipn_app.
      replace (length ms - 10 - length ms)%nat with 0%nat by lia.
      reflexivity.
Qed.

Lemma tl_map {B : Type} (f : A -> B) d : map f (tl d) = tl (map f d).
Proof. destruct d; reflexivity. Qed.

Lemma deque_append_map {B : Type} (f : A -> B) d m :
  map f (deque_append d m) = deque_append (map f d) (f m).
Proof.
  unfold deque_append. rewrite length_map.
  destruct (maxlen <=? length d)%nat; rewrite map_app; simpl.
  - rewrite tl_map. reflexivity.
  - reflexivity.
Qed.

(** [push] does not look inside the entries. *)
Lemma push_map {B : Type} (f : A -> B) d m :
  map f (push d m) = push (map f d) (f m).
Proof.
  unfold push. rewrite <- deque_append_map, length_map.
  destruct (10 <? length (deque_append d m))%nat.
  - unfold deque_popleft. apply tl_map.
  - reflexivity.
Qed.

End DequeFacts.

(** ** Averages over a history of one shape *)

Lemma divide_pos total n :
  (1 <= n)%nat -> divide total n = Ok (total / INR n).
Proof. destruct n; [lia | reflexivity]. Qed.

Lemma comprehension_scalars ws :
  comprehension as_number (map Scalar ws) = Ok ws.
Proof.
  induction ws as [|w ws IH]; simpl.
  - reflexivity.
  - rewrite IH. reflexivity.
Qed.

Lemma comprehension_item0 ps :
  comprehension item0 (map pair_entry ps) = Ok (map fst ps).
Proof.
  induction ps as [|p ps IH]; simpl.
  - reflexivity.
  - rewrite IH. reflexivity.
Qed.

Lemma comprehension_item1 ps :
  comprehension item1 (map pair_entry ps) = Ok (map snd ps).
Proof.
  induction ps as [|p ps IH]; simpl.
  - reflexivity.
  - rewrite IH. reflexivity.
Qed.

Lemma average_scalars ws :
  (1 <= length ws)%nat ->
  average as_number (map Scalar ws) = Ok (mean ws).
Proof.
  intros H. unfold average. rewrite comprehension_scalars. simpl.
  rewrite length_map. apply divide_pos, H.
Qed.

Lemma average_item0 ps :
  (1 <= length ps)%nat ->
  average item0 (map pair_entry ps) = Ok (mean (map fst ps)).
Proof.
  intros H. unfold average, mean. rewrite comprehension_item0. simpl.
  rewrite !length_map. apply divide_pos, H.
Qed.

Lemma average_item1 ps :
  (1 <= length ps)%nat ->
  average item1 (map pair_entry ps) = Ok (mean (map snd ps)).
Proof.
  intros H. unfold average, mean. rewrite comprehension_item1. simpl.
  rewrite !length_map. apply divide_pos, H.
Qed.

(** No indexing or summing of an entry divides. *)
Lemma comprehension_no_zero_division f d :
  (forall m, f m <> Raise ZeroDivisionError) ->
  comprehension f d <> Raise ZeroDivisionError.
Proof.
  intros Hf. induction d as [|m d IH]; simpl.
  - discriminate.
  - specialize (Hf m). destruct (f m) as [v|e]; simpl.
    + destruct (comprehension f d) as [vs|e]; simpl;
        [discriminate | exact IH].
    + intros Heq. apply Hf. injection Heq as ->. reflexivity.
Qed.

Lemma average_push_no_zero_division f d m :
  (forall m', f m' <> Raise ZeroDivisionError) ->
  average f (push d m) <> Raise ZeroDivisionError.
Proof.
  intros Hf. unfold average.
  pose proof (comprehension_no_zero_division f (push d m) Hf) as Hc.
  destruct (comprehension f (push d m)) as [xs|e]; simpl.
  - rewrite divide_pos by apply push_nonempty. discriminate.
  - intros Heq. apply Hc. injection Heq as ->. reflexivity.
Qed.

Lemma item0_no_zero_division m : item0 m <> Raise ZeroDivisionError.
Proof. destruct m; discriminate. Qed.

Lemma item1_no_zero_division m : item1 m <> Raise ZeroDivisionError.
Proof. destruct m; discriminate. Qed.

Lemma as_number_no_zero_division m : as_number m <> Raise ZeroDivisionError.
Proof. destruct m; discriminate. Qed.

(** ** Comparisons *)

Lemma gt_true a b : gt a b = true <-> a > b.
Proof. unfold gt. destruct (Rgt_dec a b); split; intros; try discriminate; tauto. Qed.

Lemma lt_true a b : lt a b = true <-> a < b.
Proof. unfold lt. destruct (Rlt_dec a b); split; intros; try discriminate; tauto. Qed.

Lemma ge_true a b : ge a b = true <-> a >= b.
Proof. unfold ge. destruct (Rge_dec a b); split; intros; try discriminate; tauto. Qed.

Lemma ge_false a b : ge a b = false <-> a < b.
Proof.
  unfold ge. destruct (Rge_dec a b); split; intros; try discriminate;
    try reflexivity; lra.
Qed.

(** ** The two-argument arctangent *)

Lemma atan_nonpos t : t <= 0 -> atan t <= 0.
Proof.
  intros [Hlt | Heq].
  - left. rewrite <- atan_0. apply atan_increasing, Hlt.
  - right. rewrite Heq. apply atan_0.
Qed.

Lemma atan_pos t : 0 < t -> 0 < atan t.
Proof. intros H. rewrite <- atan_0. apply atan_increasing, H. Qed.

Lemma arctan2_bound yv xv : - PI <= arctan2 yv xv <= PI.
Proof.
  pose proof PI_RGT_0 as Hpi.
  pose proof (atan_bound (yv / xv)) as [Hlo Hhi].
  unfold arctan2.
  destruct (Rlt_dec 0 xv) as [Hx | Hx].
  - lra.
  - destruct (Rlt_dec xv 0) as [Hx' | Hx'].
    + assert (Hinv : / xv < 0) by (apply Rinv_lt_0_compat, Hx').
      destruct (Rle_dec 0 yv) as [Hy | Hy].
      * assert (Hq : yv / xv <= 0) by (unfold Rdiv; nra).
        pose proof (atan_nonpos _ Hq). lra.
      * assert (Hq : 0 < yv / xv) by (unfold Rdiv; nra).
        pose proof (atan_pos _ Hq). lra.
    + destruct (Rlt_dec 0 yv); [lra|].
      destruct (Rlt_dec yv 0); lra.
Qed.

Lemma arctan2_up : arctan2 1 0 = PI / 2.
Proof.
  unfold arctan2.
  destruct (Rlt_dec 0 0); [lra|].
  destruct (Rlt_dec 0 1); [reflexivity | lra].
Qed.

Lemma arctan2_right : arctan2 0 1 = 0.
Proof.
  unfold arctan2.
  destruct (Rlt_dec 0 1); [|lra].
  replace (0 / 1) with 0 by lra. apply atan_0.
Qed.

(** ** The rule set on a history of the right shape *)

Section RuleEquations.

Variable format_fixed : nat -> R -> string.
Variable landmarks : landmark_list.

Let posed : pose_results := pose_found landmarks.

Lemma verify_squat (vs : list R) :
  let ws := push vs (knee_angle_of landmarks) in
  let avg := mean ws in
  verify_exercise format_fixed posed "squat" (map Scalar vs)
  = if lt 80 avg && lt avg 100 then
      Ok (true,
          ("Good squat form (Angle: " ++ format_fixed 1 avg ++ ")")%string,
          map Scalar ws)
    else if ge avg 100 then
      Ok (false,
          ("Squat lower (Angle: " ++ format_fixed 1 avg ++ ")")%string,
          map Scalar ws)
    else
      Ok (false,
          ("Don't squat too low (Angle: " ++ format_fixed 1 avg
           ++ ")")%string,
          map Scalar ws).
Proof.
  intros ws avg. unfold verify_exercise, posed, pose_found. cbn [pose_landmarks].
  assert (E1 : ("squat" =? "arm_raise")%string = false) by reflexivity.
  assert (E2 : ("squat" =? "squat")%string = true) by reflexivity.
  rewrite E1, E2. fold (knee_angle_of landmarks).
  rewrite <- (push_map Scalar). fold ws.
  rewrite average_scalars by apply push_nonempty.
  reflexivity.
Qed.

Lemma verify_arm_raise (ps : list (R * R)) :
  let ws := push ps (elbow_angles_of landmarks) in
  let avg_left := mean (map fst ws) in
  let avg_right := mean (map snd ws) in
  verify_exercise format_fixed posed "arm_raise" (map pair_entry ps)
  = if gt avg_left 160 && gt avg_right 160 then
      Ok (true, "Arms raised correctly"%string, map pair_entry ws)
    else
      Ok (false,
          ("Raise both arms higher (L: " ++ format_fixed 1 avg_left
           ++ ", R: " ++ format_fixed 1 avg_right ++ ")")%string,
          map pair_entry ws).
Proof.
  intros ws avg_left avg_right. unfold verify_exercise, posed, pose_found.
  cbn [pose_landmarks].
  assert (E1 : ("arm_raise" =? "arm_raise")%string = true) by reflexivity.
  rewrite E1.
  change (Pair ?l ?r) with (pair_entry (l, r)).
  fold (elbow_angles_of landmarks).
  rewrite <- (push_map pair_entry). fold ws.
  rewrite average_item0, average_item1 by apply push_nonempty.
  reflexivity.
Qed.

Lemma verify_shoulder_shrug (ps : list (R * R)) :
  let ws := push ps (ear_distances_of landmarks) in
  let avg_left := mean (map fst ws) in
  let avg_right := mean (map snd ws) in
  verify_exercise format_fixed posed "shoulder_shrug" (map pair_entry ps)
  = if lt avg_left (15 / 100) && lt avg_right (15 / 100) then
      Ok (true, "Good shoulder shrug"%string, map pair_entry ws)
    else
      Ok (false,
          ("Raise shoulders higher (L: " ++ format_fixed 2 avg_left
           ++ ", R: " ++ format_fixed 2 avg_right ++ ")")%string,
          map pair_entry ws).
Proof.
  intros ws avg_left avg_right. unfold verify_exercise, posed, pose_found.
  cbn [pose_landmarks].
  assert (E1 : ("shoulder_shrug" =? "arm_raise")%string = false)
    by reflexivity.
  assert (E2 : ("shoulder_shrug" =? "squat")%string = false) by reflexivity.
  assert (E3 : ("shoulder_shrug" =? "shoulder_shrug")%string = true)
    by reflexivity.
  rewrite E1, E2, E3.
  change (Pair ?l ?r) with (pair_entry (l, r)).
  fold (ear_distances_of landmarks).
  rewrite <- (push_map pair_entry). fold ws.
  rewrite average_item0, average_item1 by apply push_nonempty.
  reflexivity.
Qed.

End RuleEquations.

(** ** Angle calculator: range *)

Lemma degrees_bound r :
  - (2 * PI) <= r <= 2 * PI -> Rabs (r * 180 / PI) <= 360.
Proof.
  intros [Hlo Hhi]. pose proof PI_RGT_0 as Hpi.
  assert (Heq : r * 180 / PI = 180 * (r / PI)) by (field; lra).
  assert (Hq1 : r / PI <= 2).
  { apply (Rmult_le_reg_r PI); [exact Hpi|].
    unfold Rdiv. rewrite Rmult_assoc, Rinv_l by lra. lra. }
  assert (Hq2 : - 2 <= r / PI).
  { apply (Rmult_le_reg_r PI); [exact Hpi|].
    unfold Rdiv. rewrite Rmult_assoc, Rinv_l by lra. lra. }
  rewrite Heq. apply Rabs_le. lra.
Qed.

(** C8: for every three points the angle returned lies in [0, 180], and it
    is 0 whenever the two outer points coincide (also when all three do);
    the calculation is a total function, so no input is an error. *)
Theorem calculate_angle_range :
  (forall a b c : point, 0 <= calculate_angle a b c <= 180)
  /\ (forall a b : point, calculate_angle a b a = 0)
  /\ (forall p : point, calculate_angle p p p = 0).
Proof.
  assert (Hsame : forall a b : point, calculate_angle a b a = 0).
  { intros a b. unfold calculate_angle.
    rewrite Rminus_diag. unfold Rdiv. rewrite !Rmult_0_l, Rabs_R0.
    destruct (Rgt_dec 0 180); lra. }
  split; [|split].
  - intros a b c. unfold calculate_angle.
    set (r := arctan2 (snd c - snd b) (fst c - fst b)
              - arctan2 (snd a - snd b) (fst a - fst b)).
    assert (Hr : - (2 * PI) <= r <= 2 * PI).
    { pose proof (arctan2_bound (snd c - snd b) (fst c - fst b)).
      pose proof (arctan2_bound (snd a - snd b) (fst a - fst b)).
      unfold r. lra. }
    pose proof (degrees_bound r Hr) as Hup.
    pose proof (Rabs_pos (r * 180 / PI)) as Hlow.
    destruct (Rgt_dec (Rabs (r * 180 / PI)) 180); lra.
  - exact Hsame.
  - intros p. apply Hsame.
Qed.

(** The right angle at the origin between the two axes measures 90. *)
Lemma calculate_angle_right_angle :
  calculate_angle (1, 0) (0, 0) (0, 1) = 90.
Proof.
  unfold calculate_angle. simpl fst. simpl snd.
  replace (1 - 0) with 1 by lra. replace (0 - 0) with 0 by lra.
  rewrite arctan2_up, arctan2_right.
  pose proof PI_RGT_0 as Hpi.
  replace ((PI / 2 - 0) * 180 / PI) with 90 by (field; lra).
  rewrite Rabs_pos_eq by lra.
  destruct (Rgt_dec 90 180); lra.
Qed.

(** ** Repetition counter *)

(** C2: the counter is a two-state toggle; a correct verdict arms an idle
    counter without counting, a correct verdict on an armed counter counts
    one repetition and disarms, an incorrect verdict changes nothing.  On
    the verdicts false, true, true, false, true from the initial state the
    count is 1 after the third, still 1 after the fourth and the fifth, and
    a further true makes it 2. *)
Theorem count_reps_toggle :
  (rep_count initial_session, exercise_state initial_session) = (0%nat, false)
  /\ (forall n, count_reps true (n, false) = (n, true))
  /\ (forall n, count_reps true (n, true) = (S n, false))
  /\ (forall n state, count_reps false (n, state) = (n, state))
  /\ count_all [false; true; true] (0%nat, false) = (1%nat, false)
  /\ count_all [false; true; true; false] (0%nat, false) = (1%nat, false)
  /\ count_all [false; true; true; false; true] (0%nat, false)
     = (1%nat, true)
  /\ count_all [false; true; true; false; true; true] (0%nat, false)
     = (2%nat, false).
Proof. repeat split; reflexivity. Qed.

Lemma count_reps_fst correct n state :
  fst (count_reps correct (n, state))
  = if correct && state then S n else n.
Proof. destruct correct, state; reflexivity. Qed.

(** C9: a verdict never lowers the repetition count: the count goes up by
    one on a correct verdict in the armed state and is unchanged otherwise;
    hence it never decreases over any run of verdicts. *)
Theorem rep_count_monotone :
  (forall correct n state,
      fst (count_reps correct (n, state))
      = if correct && state then S n else n)
  /\ (forall correct n state,
         (n <= fst (count_reps correct (n, state)))%nat)
  /\ (forall verdicts n state,
         (n <= fst (count_all verdicts (n, state)))%nat).
Proof.
  split; [|split].
  - apply count_reps_fst.
  - intros correct n state. rewrite count_reps_fst.
    destruct (correct && state); lia.
  - intros verdicts. induction verdicts as [|v vs IH]; intros n state.
    + simpl. lia.
    + change (count_all (v :: vs) (n, state))
        with (count_all vs (count_reps v (n, state))).
      destruct (count_reps v (n, state)) as [n' state'] eqn:E.
      assert (Hstep : (n <= n')%nat).
      { change n' with (fst (n', state')). rewrite <- E.
        rewrite count_reps_fst. destruct (v && state); lia. }
      apply (Nat.le_trans _ n'); [exact Hstep | apply IH].
Qed.

(** ** Exercise switch *)

(** C1: the switch moves to the next exercise cyclically, sets the count to
    0 and empties the history, but it leaves [exercise_state] as it was:
    from the armed session it yields a session that is still armed, and
    the first correct verdict after it counts a repetition at once. *)
Theorem switch_exercise_keeps_exercise_state :
  switch_exercise armed_session
  = {| current_exercise := 0; rep_count := 0;
       exercise_state := true; angle_history := [] |}
  /\ (forall fmt,
         iteration fmt {| frame := Some no_pose; pressed := KeyN |}
                   armed_session
         = Ok (Continue {| current_exercise := 0; rep_count := 0;
                           exercise_state := true; angle_history := [] |}))
  /\ count_reps true (rep_count (switch_exercise armed_session),
                      exercise_state (switch_exercise armed_session))
     = (1%nat, false)
  /\ (forall s,
         current_exercise (switch_exercise s)
         = ((current_exercise s + 1) mod 5)%nat
         /\ rep_count (switch_exercise s) = 0%nat
         /\ angle_history (switch_exercise s) = []
         /\ exercise_state (switch_exercise s) = exercise_state s).
Proof.
  split; [reflexivity|]. split; [intros fmt; reflexivity|].
  split; [reflexivity|]. intros s. repeat split.
Qed.

(** ** Rule set without a pose, and the kinds it cannot verify *)

(** C4: without a pose, whatever the exercise and the history, the call
    returns normally with [is_correct] false, the feedback
    "No pose detected" and the history as it was passed. *)
Theorem verify_exercise_no_pose :
  forall fmt (exercise_type : string) (d : deque measurement),
    verify_exercise fmt no_pose exercise_type d
    = Ok (false, "No pose detected"%string, d).
Proof. intros fmt exercise_type d. reflexivity. Qed.

(** C5 does not hold without a pose: leg raise then answers
    "No pose detected", not "Unable to detect leg_raise properly". *)
Lemma leg_raise_without_pose_feedback :
  verify_exercise format_blank no_pose "leg_raise" []
  = Ok (false, "No pose detected"%string, [])
  /\ verify_exercise format_blank no_pose "leg_raise" []
     <> Ok (false, "Unable to detect leg_raise properly"%string, []).
Proof. split; [reflexivity | discriminate]. Qed.

(** C5 as amended: leg raise and knee extension always return
    [is_correct] false and the history as it was passed; the feedback is
    "Unable to detect <kind> properly" when a pose is present and
    "No pose detected" when it is not. *)
Theorem verify_exercise_unverifiable_kinds :
  forall fmt (results : pose_results) (d : deque measurement),
    verify_exercise fmt results "leg_raise" d
    = Ok (false,
          match pose_landmarks results with
          | Some _ => "Unable to detect leg_raise properly"%string
          | None => "No pose detected"%string
          end, d)
    /\ verify_exercise fmt results "knee_extension" d
       = Ok (false,
             match pose_landmarks results with
             | Some _ => "Unable to detect knee_extension properly"%string
             | None => "No pose detected"%string
             end, d).
Proof.
  intros fmt [[landmarks|]] d; split; reflexivity.
Qed.

(** ** Bounded history *)

(** C6: starting from the empty history, after any sequence of pushes the
    history holds at most 10 entries, namely the last 10 pushed, in the
    order pushed; eleven pushes leave the last ten, the first one
    evicted. *)
Theorem history_bounded_fifo :
  (forall ms : list measurement,
      (length (push_all new_deque ms) <= 10)%nat)
  /\ (forall ms : list measurement,
         push_all new_deque ms = skipn (length ms - 10) ms)
  /\ (forall m0 m1 m2 m3 m4 m5 m6 m7 m8 m9 m10 : measurement,
         push_all new_deque [m0; m1; m2; m3; m4; m5; m6; m7; m8; m9; m10]
         = [m1; m2; m3; m4; m5; m6; m7; m8; m9; m10]).
Proof.
  split; [|split].
  - intros ms. apply push_all_length_le. simpl. lia.
  - apply push_all_window.
  - intros. reflexivity.
Qed.

(** ** No division by zero *)

Lemma verify_exercise_no_zero_division fmt results e d :
  verify_exercise fmt results e d <> Raise ZeroDivisionError.
Proof.
  unfold verify_exercise.
  destruct (pose_landmarks results) as [landmarks|]; [|discriminate].
  destruct (e =? "arm_raise")%string.
  { match goal with
    | |- context [average item0 (push d ?m)] =>
      pose proof (average_push_no_zero_division item0 d m
                    item0_no_zero_division) as H0;
      pose proof (average_push_no_zero_division item1 d m
                    item1_no_zero_division) as H1;
      destruct (average item0 (push d m)) as [al|e0]; simpl bind;
      [ destruct (average item1 (push d m)) as [ar|e1]; simpl bind
      | ]
    end.
    - destruct (gt al 160 && gt ar 160); discriminate.
    - intros Heq. apply H1. injection Heq as ->. reflexivity.
    - intros Heq. apply H0. injection Heq as ->. reflexivity. }
  destruct (e =? "squat")%string.
  { match goal with
    | |- context [average as_number (push d ?m)] =>
      pose proof (average_push_no_zero_division as_number d m
                    as_number_no_zero_division) as H0;
      destruct (average as_number (push d m)) as [av|e0]; simpl bind
    end.
    - destruct (lt 80 av && lt av 100); [discriminate|].
      destruct (ge av 100); discriminate.
    - intros Heq. apply H0. injection Heq as ->. reflexivity. }
  destruct (e =? "shoulder_shrug")%string.
  { match goal with
    | |- context [average item0 (push d ?m)] =>
      pose proof (average_push_no_zero_division item0 d m
                    item0_no_zero_division) as H0;
      pose proof (average_push_no_zero_division item1 d m
                    item1_no_zero_division) as H1;
      destruct (average item0 (push d m)) as [al|e0]; simpl bind;
      [ destruct (average item1 (push d m)) as [ar|e1]; simpl bind
      | ]
    end.
    - destruct (lt al (15 / 100) && lt ar (15 / 100)); discriminate.
    - intros Heq. apply H1. injection Heq as ->. reflexivity.
    - intros Heq. apply H0. injection Heq as ->. reflexivity. }
  destruct ((e =? "leg_raise")%string || (e =? "knee_extension")%string);
    discriminate.
Qed.

(** C10: every averaging branch pushes before it averages, so the divisor,
    the length of the history after the push, is at least 1 and the
    division succeeds; no call of the rule set raises a division by zero,
    and on an empty history each averaging branch returns normally with
    the one measurement it pushed. *)
Theorem average_divisor_positive :
  (forall (d : deque measurement) m, (1 <= length (push d m))%nat)
  /\ (forall (d : deque measurement) m total,
         divide total (length (push d m))
         = Ok (total / INR (length (push d m))))
  /\ (forall fmt results exercise_type d,
         verify_exercise fmt results exercise_type d
         <> Raise ZeroDivisionError)
  /\ (forall fmt landmarks,
         exists v1 v2 v3,
           verify_exercise fmt (pose_found landmarks) "arm_raise" new_deque
           = Ok v1
           /\ history v1 = [pair_entry (elbow_angles_of landmarks)]
           /\ verify_exercise fmt (pose_found landmarks) "squat" new_deque
              = Ok v2
           /\ history v2 = [Scalar (knee_angle_of landmarks)]
           /\ verify_exercise fmt (pose_found landmarks) "shoulder_shrug"
                              new_deque
              = Ok v3
           /\ history v3 = [pair_entry (ear_distances_of landmarks)]).
Proof.
  split; [|split; [|split]].
  - intros d m. apply push_nonempty.
  - intros d m total. apply divide_pos, push_nonempty.
  - apply verify_exercise_no_zero_division.
  - intros fmt landmarks.
    pose proof (verify_arm_raise fmt landmarks []) as Ha.
    pose proof (verify_squat fmt landmarks []) as Hs.
    pose proof (verify_shoulder_shrug fmt landmarks []) as Hh.
    cbv zeta in Ha, Hs, Hh.
    change (map pair_entry []) with (@new_deque measurement) in Ha, Hh.
    change (map Scalar []) with (@new_deque measurement) in Hs.
    rewrite Ha, Hs, Hh.
    repeat match goal with
           | |- context [if ?c then _ else _] => destruct c
           end;
      eexists _, _, _; repeat split.
Qed.

(** ** Thresholds *)

Lemma gt_false a b : gt a b = false <-> a <= b.
Proof.
  unfold gt. destruct (Rgt_dec a b); split; intros; try discriminate;
    try reflexivity; lra.
Qed.

Lemma lt_false a b : lt a b = false <-> b <= a.
Proof.
  unfold lt. destruct (Rlt_dec a b); split; intros; try discriminate;
    try reflexivity; lra.
Qed.

Ltac reflect_cmp :=
  repeat match goal with
         | H : lt _ _ = true |- _ => apply lt_true in H
         | H : lt _ _ = false |- _ => apply lt_false in H
         | H : gt _ _ = true |- _ => apply gt_true in H
         | H : gt _ _ = false |- _ => apply gt_false in H
         | H : ge _ _ = true |- _ => apply ge_true in H
         | H : ge _ _ = false |- _ => apply ge_false in H
         end.

(** C3: squat with a pose present, on a history of numbers: the knee angle
    is pushed, the history averaged, and [is_correct] is true exactly when
    the average lies strictly between 80 and 100 (so not at 80 nor at
    100); an average of 100 or more gives the feedback "Squat lower", an
    average of 80 or less gives "Don't squat too low". *)
Theorem squat_verdict :
  forall fmt landmarks (vs : list R),
    let ws := push vs (knee_angle_of landmarks) in
    let avg := mean ws in
    exists b fb,
      verify_exercise fmt (pose_found landmarks) "squat" (map Scalar vs)
      = Ok (b, fb, map Scalar ws)
      /\ (b = true <-> 80 < avg < 100)
      /\ (avg = 80 -> b = false)
      /\ (avg = 100 -> b = false)
      /\ (avg >= 100 ->
          fb = ("Squat lower (Angle: " ++ fmt 1%nat avg ++ ")")%string)
      /\ (avg <= 80 ->
          fb = ("Don't squat too low (Angle: " ++ fmt 1%nat avg
                ++ ")")%string).
Proof.
  intros fmt landmarks vs ws avg.
  pose proof (verify_squat fmt landmarks vs) as H. cbv zeta in H.
  fold ws avg in H. rewrite H. clear H.
  destruct (lt 80 avg) eqn:E1; destruct (lt avg 100) eqn:E2;
    simpl andb; cbv iota;
    try (destruct (ge avg 100) eqn:E3);
    reflect_cmp;
    eexists _, _; (split; [reflexivity|]);
    repeat split; intros; try reflexivity; try discriminate; lra.
Qed.

(** C7: arm raise with a pose present, on a history of pairs: the pair of
    elbow angles is pushed, each component averaged, and [is_correct] is
    true exactly when both averages are strictly above 160; when it is
    false the feedback carries both averages with one digit after the
    point. *)
Theorem arm_raise_verdict :
  forall fmt landmarks (ps : list (R * R)),
    let ws := push ps (elbow_angles_of landmarks) in
    let avg_left := mean (map fst ws) in
    let avg_right := mean (map snd ws) in
    exists b fb,
      verify_exercise fmt (pose_found landmarks) "arm_raise"
                      (map pair_entry ps)
      = Ok (b, fb, map pair_entry ws)
      /\ (b = true <-> avg_left > 160 /\ avg_right > 160)
      /\ (avg_left <= 160 -> b = false)
      /\ (avg_right <= 160 -> b = false)
      /\ (b = false ->
          fb = ("Raise both arms higher (L: " ++ fmt 1%nat avg_left
                ++ ", R: " ++ fmt 1%nat avg_right ++ ")")%string).
Proof.
  intros fmt landmarks ps ws avg_left avg_right.
  pose proof (verify_arm_raise fmt landmarks ps) as H. cbv zeta in H.
  fold ws avg_left avg_right in H. rewrite H. clear H.
  destruct (gt avg_left 160) eqn:E1; destruct (gt avg_right 160) eqn:E2;
    simpl andb; cbv iota;
    reflect_cmp;
    eexists _, _; (split; [reflexivity|]);
    repeat split; intros; try reflexivity; try discriminate;
    try lra;
    match goal with
    | H : _ /\ _ |- _ => destruct H; lra
    end.
Qed.

(** ** The rules at a concrete pose *)

Lemma arctan2_left : arctan2 0 (-1) = PI.
Proof.
  unfold arctan2.
  destruct (Rlt_dec 0 (-1)); [lra|].
  destruct (Rlt_dec (-1) 0); [|lra].
  destruct (Rle_dec 0 0); [|lra].
  replace (0 / -1) with 0 by lra. rewrite atan_0. lra.
Qed.

Lemma calculate_angle_straight :
  calculate_angle (-1, 0) (0, 0) (1, 0) = 180.
Proof.
  unfold calculate_angle. simpl fst. simpl snd.
  replace (1 - 0) with 1 by lra. replace (0 - 0) with 0 by lra.
  replace (-1 - 0) with (-1) by lra.
  rewrite arctan2_left, arctan2_right.
  pose proof PI_RGT_0 as Hpi.
  replace ((0 - PI) * 180 / PI) with (-180) by (field; lra).
  rewrite Rabs_left by lra.
  destruct (Rgt_dec (- -180) 180); lra.
Qed.

Lemma sample_knee_angle : knee_angle_of sample_landmarks = 90.
Proof. exact calculate_angle_right_angle. Qed.

Lemma sample_elbow_angles : elbow_angles_of sample_landmarks = (180, 180).
Proof.
  unfold elbow_angles_of.
  change (calculate_angle (xy sample_landmarks LEFT_SHOULDER)
            (xy sample_landmarks LEFT_ELBOW) (xy sample_landmarks LEFT_WRIST))
    with (calculate_angle (-1, 0) (0, 0) (1, 0)).
  change (calculate_angle (xy sample_landmarks RIGHT_SHOULDER)
            (xy sample_landmarks RIGHT_ELBOW)
            (xy sample_landmarks RIGHT_WRIST))
    with (calculate_angle (-1, 0) (0, 0) (1, 0)).
  rewrite calculate_angle_straight. reflexivity.
Qed.

(** A knee at a right angle on an empty history is a correct squat. *)
Lemma squat_verdict_right_angle :
  exists fb,
    verify_exercise format_blank (pose_found sample_landmarks) "squat"
                    new_deque
    = Ok (true, fb, [Scalar 90]).
Proof.
  destruct (squat_verdict format_blank sample_landmarks [])
    as (b & fb & Heq & Hiff & _).
  exists fb.
  assert (Hb : b = true).
  { apply Hiff.
    change (push [] (knee_angle_of sample_landmarks))
      with [knee_angle_of sample_landmarks].
    rewrite sample_knee_angle. unfold mean, sum. simpl. lra. }
  rewrite Hb in Heq.
  change (map Scalar (push [] (knee_angle_of sample_landmarks)))
    with [Scalar (knee_angle_of sample_landmarks)] in Heq.
  rewrite sample_knee_angle in Heq. exact Heq.
Defined.

(** Both arms straight on an empty history is a correct arm raise. *)
Lemma arm_raise_verdict_straight_arms :
  exists fb,
    verify_exercise format_blank (pose_found sample_landmarks) "arm_raise"
                    new_deque
    = Ok (true, fb, [Pair 180 180]).
Proof.
  destruct (arm_raise_verdict format_blank sample_landmarks [])
    as (b & fb & Heq & Hiff & _).
  exists fb.
  assert (Hb : b = true).
  { apply Hiff.
    change (push [] (elbow_angles_of sample_landmarks))
      with [elbow_angles_of sample_landmarks].
    rewrite sample_elbow_angles. unfold mean, sum. simpl. lra. }
  rewrite Hb in Heq.
  change (map pair_entry (push [] (elbow_angles_of sample_landmarks)))
    with [pair_entry (elbow_angles_of sample_landmarks)] in Heq.
  rewrite sample_elbow_angles in Heq. exact Heq.
Defined.

(** ** The loop never raises *)

Lemma well_shaped_empty e : In e exercises -> well_shaped e [].
Proof.
  intros He. simpl in He.
  destruct He as [<-|[<-|[<-|[<-|[<-|[]]]]]]; unfold well_shaped; simpl;
    try reflexivity; try (exists []; reflexivity).
Qed.

Lemma verify_exercise_well_shaped fmt results e d :
  In e exercises -> well_shaped e d ->
  exists v, verify_exercise fmt results e d = Ok v
            /\ well_shaped e (history v).
Proof.
  intros He Hd. destruct results as [[landmarks|]].
  2:{ eexists. split; [reflexivity | exact Hd]. }
  fold (pose_found landmarks).
  simpl in He.
  destruct He as [<-|[<-|[<-|[<-|[<-|[]]]]]]; unfold well_shaped in Hd;
    simpl in Hd.
  - destruct Hd as [ps ->].
    pose proof (verify_arm_raise fmt landmarks ps) as H. cbv zeta in H.
    rewrite H.
    match goal with |- context [if ?c then _ else _] => destruct c end;
      eexists; (split; [reflexivity|]); eexists; reflexivity.
  - destruct Hd as [vs ->].
    pose proof (verify_squat fmt landmarks vs) as H. cbv zeta in H.
    rewrite H.
    repeat match goal with
           | |- context [if ?c then _ else _] => destruct c
           end;
      eexists; (split; [reflexivity|]); eexists; reflexivity.
  - subst d. eexists. split; reflexivity.
  - destruct Hd as [ps ->].
    pose proof (verify_shoulder_shrug fmt landmarks ps) as H. cbv zeta in H.
    rewrite H.
    match goal with |- context [if ?c then _ else _] => destruct c end;
      eexists; (split; [reflexivity|]); eexists; reflexivity.
  - subst d. eexists. split; reflexivity.
Qed.

Lemma initial_session_ok : session_ok initial_session.
Proof.
  exists "arm_raise"%string. split; [reflexivity|].
  exists []. reflexivity.
Qed.

Lemma switch_exercise_ok s : session_ok (switch_exercise s).
Proof.
  unfold session_ok, switch_exercise. cbn [current_exercise angle_history].
  assert (Hlt : ((current_exercise s + 1) mod length exercises
                 < length exercises)%nat).
  { apply Nat.mod_upper_bound. simpl. lia. }
  destruct (nth_error exercises
              ((current_exercise s + 1) mod length exercises)) as [e|] eqn:E.
  - exists e. split; [reflexivity|].
    apply well_shaped_empty. eapply nth_error_In, E.
  - apply nth_error_None in E. lia.
Qed.

Lemma iteration_ok fmt t s :
  session_ok s ->
  exists o, iteration fmt t s = Ok o /\ session_ok (outcome_session o).
Proof.
  intros Hs. unfold iteration.
  destruct (frame t) as [results|].
  2:{ exists (Break s). split; [reflexivity | exact Hs]. }
  destruct Hs as (e & He & Hd).
  unfold exercise_at. rewrite He. cbn [bind].
  destruct (verify_exercise_well_shaped fmt results e (angle_history s))
    as (v & Hv & Hshape); [eapply nth_error_In, He | exact Hd |].
  rewrite Hv. cbn [bind].
  destruct (count_reps (is_correct v) (rep_count s, exercise_state s))
    as [reps state].
  destruct (pressed t); eexists; (split; [reflexivity|]);
    cbn [outcome_session].
  - exists e. split; [exact He | exact Hshape].
  - apply switch_exercise_ok.
  - exists e. split; [exact He | exact Hshape].
Qed.

Lemma run_ok fmt ts :
  forall s, session_ok s ->
            exists s', run fmt ts s = Ok s' /\ session_ok s'.
Proof.
  induction ts as [|t ts IH]; intros s Hs.
  - exists s. split; [reflexivity | exact Hs].
  - destruct (iteration_ok fmt t s Hs) as (o & Ho & Hok).
    simpl run. rewrite Ho. simpl bind.
    destruct o as [s1|s1]; cbn [outcome_session] in Hok.
    + apply IH, Hok.
    + exists s1. split; [reflexivity | exact Hok].
Qed.

(** From the initial session the loop returns normally on every sequence of
    frames and keys: the rule set never meets an entry of the wrong shape,
    an index out of range or an empty divisor. *)
Lemma run_from_start_returns fmt ts :
  exists s, run fmt ts initial_session = Ok s.
Proof.
  destruct (run_ok fmt ts initial_session initial_session_ok) as (s & Hs & _).
  exists s. exact Hs.
Qed.

(** ** Geometry of the angle calculator *)

Ltac split_signs :=
  repeat match goal with
         | |- context [Rlt_dec ?a ?b] => destruct (Rlt_dec a b)
         | |- context [Rle_dec ?a ?b] => destruct (Rle_dec a b)
         end.

Lemma arctan2_scale k yv xv :
  0 < k -> arctan2 (k * yv) (k * xv) = arctan2 yv xv.
Proof.
  intros Hk.
  assert (Hq : xv <> 0 -> k * yv / (k * xv) = yv / xv)
    by (intros; field; lra).
  unfold arctan2. split_signs; try reflexivity; try (exfalso; nra);
    rewrite Hq by lra; reflexivity.
Qed.






(** The angle as a function of the difference of the two [arctan2]s. *)
Lemma calculate_angle_of_radians a b c r :
  arctan2 (snd c - snd b) (fst c - fst b)
  - arctan2 (snd a - snd b) (fst a - fst b) = r ->
  calculate_angle a b c
  = if Rgt_dec (Rabs (r * 180 / PI)) 180
    then 360 - Rabs (r * 180 / PI) else Rabs (r * 180 / PI).
Proof. intros <-. reflexivity. Qed.

Lemma degrees_of_turn q :
  q * PI * 180 / PI = q * 180.
Proof. pose proof PI_RGT_0. field. lra. Qed.



(** X1: the angle does not depend on the order of the two outer points. *)
Theorem calculate_angle_symmetric :
  forall a b c : point, calculate_angle a b c = calculate_angle c b a.
Proof.
  intros a b c. unfold calculate_angle.
  set (ta := arctan2 (snd a - snd b) (fst a - fst b)).
  set (tc := arctan2 (snd c - snd b) (fst c - fst b)).
  pose proof PI_RGT_0 as Hpi.
  replace ((ta - tc) * 180 / PI) with (- ((tc - ta) * 180 / PI))
    by (field; lra).
  rewrite Rabs_Ropp. reflexivity.
Qed.

(** X2: the angle is unchanged when the three points are scaled by the
    same positive factor and shifted by the same vector. *)
Theorem calculate_angle_similarity :
  forall (k : R) (t a b c : point),
    0 < k ->
    calculate_angle (move k t a) (move k t b) (move k t c)
    = calculate_angle a b c.
Proof.
  intros k t a b c Hk. unfold calculate_angle, move; simpl fst; simpl snd.
  replace (k * snd c + snd t - (k * snd b + snd t))
    with (k * (snd c - snd b)) by ring.
  replace (k * fst c + fst t - (k * fst b + fst t))
    with (k * (fst c - fst b)) by ring.
  replace (k * snd a + snd t - (k * snd b + snd t))
    with (k * (snd a - snd b)) by ring.
  replace (k * fst a + fst t - (k * fst b + fst t))
    with (k * (fst a - fst b)) by ring.
  rewrite !arctan2_scale by exact Hk. reflexivity.
Qed.

Lemma calculate_angle_similarity_example :
  calculate_angle (move 2 (3, 4) (1, 0)) (move 2 (3, 4) (0, 0))
                  (move 2 (3, 4) (0, 1))
  = calculate_angle (1, 0) (0, 0) (0, 1).
Proof. apply calculate_angle_similarity. lra. Defined.

(** X3: when the two outer points lie on the same ray from the vertex the
    angle is 0. *)
Theorem calculate_angle_same_ray :
  forall (a b c : point) (k : R),
    0 < k ->
    fst c - fst b = k * (fst a - fst b) ->
    snd c - snd b = k * (snd a - snd b) ->
    calculate_angle a b c = 0.
Proof.
  intros a b c k Hk Hx Hy.
  rewrite (calculate_angle_of_radians a b c 0).
  - unfold Rdiv. rewrite !Rmult_0_l, Rabs_R0.
    destruct (Rgt_dec 0 180); lra.
  - rewrite Hx, Hy, arctan2_scale by exact Hk. ring.
Qed.

Lemma calculate_angle_same_ray_example :
  calculate_angle (1, 1) (0, 0) (2, 2) = 0.
Proof.
  apply (calculate_angle_same_ray (1, 1) (0, 0) (2, 2) 2); simpl; lra.
Defined.






(** ** More on the bounded history *)

(** X6: on a deque within its bound the explicit [popleft] after [append]
    never runs: [push] is the bounded [append], the new entry is the
    rightmost one, and the length grows by one until it stays at 10. *)
Theorem push_is_bounded_append :
  forall (A : Type) (d : deque A) (m : A),
    (length d <= 10)%nat ->
    push d m = deque_append d m
    /\ (exists d', push d m = d' ++ [m])
    /\ length (push d m) = Nat.min (S (length d)) 10.
Proof.
  intros A d m Hd.
  assert (Hfit : (10 <? length (deque_append d m))%nat = false).
  { apply Nat.ltb_ge. rewrite deque_append_length.
    destruct (maxlen <=? length d)%nat eqn:E.
    - lia.
    - apply Nat.leb_gt in E. unfold maxlen in E. lia. }
  assert (Heq : push d m = deque_append d m).
  { unfold push. rewrite Hfit. reflexivity. }
  split; [exact Heq|]. rewrite Heq. split.
  - unfold deque_append. destruct (maxlen <=? length d)%nat; eexists;
      reflexivity.
  - rewrite deque_append_length.
    destruct (maxlen <=? length d)%nat eqn:E.
    + apply Nat.leb_le in E. unfold maxlen in E. lia.
    + apply Nat.leb_gt in E. unfold maxlen in E. lia.
Qed.

Lemma push_is_bounded_append_example :
  push [1%nat; 2%nat] 3%nat = deque_append [1%nat; 2%nat] 3%nat
  /\ (exists d', push [1%nat; 2%nat] 3%nat = d' ++ [3%nat])
  /\ length (push [1%nat; 2%nat] 3%nat) = Nat.min 3 10.
Proof.
  apply (push_is_bounded_append nat [1%nat; 2%nat] 3%nat). simpl. lia.
Defined.

Lemma push_all_window_from {A : Type} (d : deque A) (ms : list A) :
  (length d <= 10)%nat ->
  push_all d ms = skipn (length d + length ms - 10) (d ++ ms).
Proof.
  intros Hd. induction ms as [|m ms IH] using rev_ind.
  - simpl. rewrite app_nil_r.
    replace (length d + 0 - 10)%nat with 0%nat by lia. reflexivity.
  - rewrite push_all_snoc.
    assert (Hb : (length (push_all d ms) <= 10)%nat)
      by (apply push_all_length_le, Hd).
    rewrite push_window by exact Hb.
    rewrite IH, length_skipn, length_app.
    replace (skipn (length d + length ms - 10) (d ++ ms) ++ [m])
      with (skipn (length d + length ms - 10) ((d ++ ms) ++ [m])).
    + rewrite skipn_skipn, <- app_assoc, length_app. simpl. f_equal. lia.
    + rewrite skipn_app, length_app.
      replace (length d + length ms - 10 - (length d + length ms))%nat
        with 0%nat by lia.
      reflexivity.
Qed.

(** X7: after any pushes onto a deque within its bound the deque holds the
    last 10 of the old entries followed by the new ones; once 10 or more
    have been pushed nothing of the old contents is left. *)
Theorem push_all_forgets :
  forall (A : Type) (d : deque A) (ms : list A),
    (length d <= 10)%nat ->
    push_all d ms = skipn (length d + length ms - 10) (d ++ ms)
    /\ ((10 <= length ms)%nat ->
        push_all d ms = skipn (length ms - 10) ms).
Proof.
  intros A d ms Hd. split.
  - apply push_all_window_from, Hd.
  - intros Hms. rewrite push_all_window_from by exact Hd.
    rewrite skipn_app.
    rewrite skipn_all2 by lia. simpl. f_equal. lia.
Qed.

Lemma push_all_forgets_example :
  push_all [0%nat; 0%nat] [1; 2; 3; 4; 5; 6; 7; 8; 9; 10]%nat
  = skipn (2 + 10 - 10) ([0; 0] ++ [1; 2; 3; 4; 5; 6; 7; 8; 9; 10])%nat
  /\ ((10 <= 10)%nat ->
      push_all [0%nat; 0%nat] [1; 2; 3; 4; 5; 6; 7; 8; 9; 10]%nat
      = skipn (10 - 10) [1; 2; 3; 4; 5; 6; 7; 8; 9; 10]%nat).
Proof.
  apply (push_all_forgets nat [0%nat; 0%nat]
           [1; 2; 3; 4; 5; 6; 7; 8; 9; 10]%nat).
  simpl. lia.
Defined.

(** ** Averages stay between the entries *)

Lemma sum_from acc xs : fold_left Rplus xs acc = acc + sum xs.
Proof.
  unfold sum. revert acc.
  induction xs as [|v xs IH]; intros acc; simpl.
  - ring.
  - rewrite IH, (IH (0 + v)). ring.
Qed.

Lemma sum_cons v xs : sum (v :: xs) = v + sum xs.
Proof. unfold sum at 1. simpl. rewrite sum_from. ring. Qed.


Lemma sum_strictly_between lo hi xs :
  xs <> [] ->
  Forall (fun v => lo < v < hi) xs ->
  INR (length xs) * lo < sum xs < INR (length xs) * hi.
Proof.
  intros Hne Hall. induction Hall as [|v xs Hv Hall IH].
  - contradiction.
  - rewrite sum_cons. change (length (v :: xs)) with (S (length xs)).
    rewrite S_INR.
    destruct xs as [|w xs'].
    + unfold sum. simpl. lra.
    + assert (Hne' : w :: xs' <> []) by discriminate.
      specialize (IH Hne'). lra.
Qed.


Lemma quotient_strictly_between total n lo hi :
  (1 <= n)%nat ->
  INR n * lo < total < INR n * hi ->
  lo < total / INR n < hi.
Proof.
  intros Hn [Hlo Hhi].
  assert (Hpos : 0 < INR n) by (apply lt_0_INR; lia).
  split.
  - apply (Rmult_lt_reg_l (INR n)); [exact Hpos|].
    replace (INR n * (total / INR n)) with total by (field; lra). exact Hlo.
  - apply (Rmult_lt_reg_l (INR n)); [exact Hpos|].
    replace (INR n * (total / INR n)) with total by (field; lra). exact Hhi.
Qed.




(** ** More on the rule set *)

Lemma mean_singleton v : mean [v] = v.
Proof. unfold mean, sum. simpl. field. Qed.

Lemma mean_strictly_between lo hi xs :
  xs <> [] ->
  Forall (fun v => lo < v < hi) xs ->
  lo < mean xs < hi.
Proof.
  intros Hne Hall. unfold mean.
  apply quotient_strictly_between.
  - destruct xs; [contradiction | simpl; lia].
  - apply sum_strictly_between; assumption.
Qed.

Lemma push_not_nil {A : Type} (d : deque A) (m : A) : push d m <> [].
Proof.
  intros H. pose proof (push_nonempty d m) as Hlen.
  rewrite H in Hlen. simpl in Hlen. lia.
Qed.

(** X9: on an empty history, as at the start and right after a switch,
    each measuring rule decides on the measurement of the current frame
    alone and returns a history holding just that measurement. *)
Theorem first_frame_unsmoothed :
  forall fmt landmarks,
    let k := knee_angle_of landmarks in
    let e := elbow_angles_of landmarks in
    let s := ear_distances_of landmarks in
    exists fb1 fb2 fb3,
      verify_exercise fmt (pose_found landmarks) "squat" new_deque
      = Ok (lt 80 k && lt k 100, fb1, [Scalar k])
      /\ verify_exercise fmt (pose_found landmarks) "arm_raise" new_deque
         = Ok (gt (fst e) 160 && gt (snd e) 160, fb2, [Pair (fst e) (snd e)])
      /\ verify_exercise fmt (pose_found landmarks) "shoulder_shrug"
                         new_deque
         = Ok (lt (fst s) (15 / 100) && lt (snd s) (15 / 100), fb3,
               [Pair (fst s) (snd s)]).
Proof.
  intros fmt landmarks k e s.
  assert (Hs : exists fb1,
             verify_exercise fmt (pose_found landmarks) "squat" new_deque
             = Ok (lt 80 k && lt k 100, fb1, [Scalar k])).
  { pose proof (verify_squat fmt landmarks []) as H. cbv zeta in H.
    change (map Scalar []) with (@new_deque measurement) in H.
    change (push [] (knee_angle_of landmarks)) with [k] in H.
    rewrite mean_singleton in H. rewrite H.
    destruct (lt 80 k && lt k 100); [|destruct (ge k 100)];
      eexists; reflexivity. }
  assert (Ha : exists fb2,
             verify_exercise fmt (pose_found landmarks) "arm_raise" new_deque
             = Ok (gt (fst e) 160 && gt (snd e) 160, fb2,
                   [Pair (fst e) (snd e)])).
  { pose proof (verify_arm_raise fmt landmarks []) as H. cbv zeta in H.
    change (map pair_entry []) with (@new_deque measurement) in H.
    change (push [] (elbow_angles_of landmarks)) with [e] in H.
    change (map fst [e]) with [fst e] in H.
    change (map snd [e]) with [snd e] in H.
    rewrite 2!mean_singleton in H. rewrite H.
    destruct (gt (fst e) 160 && gt (snd e) 160); eexists; reflexivity. }
  assert (Hh : exists fb3,
             verify_exercise fmt (pose_found landmarks) "shoulder_shrug"
                             new_deque
             = Ok (lt (fst s) (15 / 100) && lt (snd s) (15 / 100), fb3,
                   [Pair (fst s) (snd s)])).
  { pose proof (verify_shoulder_shrug fmt landmarks []) as H. cbv zeta in H.
    change (map pair_entry []) with (@new_deque measurement) in H.
    change (push [] (ear_distances_of landmarks)) with [s] in H.
    change (map fst [s]) with [fst s] in H.
    change (map snd [s]) with [snd s] in H.
    rewrite 2!mean_singleton in H. rewrite H.
    destruct (lt (fst s) (15 / 100) && lt (snd s) (15 / 100));
      eexists; reflexivity. }
  destruct Hs as [fb1 Hs]. destruct Ha as [fb2 Ha]. destruct Hh as [fb3 Hh].
  exists fb1, fb2, fb3. repeat split; assumption.
Qed.

(** X10: a squat whose averaged window holds only angles strictly between
    80 and 100 is judged correct. *)
Theorem squat_steady_pose :
  forall fmt landmarks (vs : list R),
    Forall (fun v => 80 < v < 100) (push vs (knee_angle_of landmarks)) ->
    exists fb,
      verify_exercise fmt (pose_found landmarks) "squat" (map Scalar vs)
      = Ok (true, fb, map Scalar (push vs (knee_angle_of landmarks))).
Proof.
  intros fmt landmarks vs Hall.
  pose proof (verify_squat fmt landmarks vs) as H. cbv zeta in H.
  rewrite H. clear H.
  destruct (mean_strictly_between 80 100 _ (push_not_nil _ _) Hall)
    as [Hlo Hhi].
  apply lt_true in Hlo. apply lt_true in Hhi. rewrite Hlo, Hhi.
  eexists. reflexivity.
Qed.

Lemma squat_steady_pose_example :
  exists fb,
    verify_exercise format_blank (pose_found sample_landmarks) "squat"
                    (map Scalar [85; 95])
    = Ok (true, fb,
          map Scalar (push [85; 95] (knee_angle_of sample_landmarks))).
Proof.
  apply squat_steady_pose.
  change (push [85; 95] (knee_angle_of sample_landmarks))
    with [85; 95; knee_angle_of sample_landmarks].
  rewrite sample_knee_angle. repeat constructor; lra.
Defined.

Lemma sum_above lo xs :
  xs <> [] ->
  Forall (fun v => lo < v) xs ->
  INR (length xs) * lo < sum xs.
Proof.
  intros Hne Hall. induction Hall as [|v xs Hv Hall IH].
  - contradiction.
  - rewrite sum_cons. change (length (v :: xs)) with (S (length xs)).
    rewrite S_INR.
    destruct xs as [|w xs'].
    + unfold sum. simpl. lra.
    + assert (Hne' : w :: xs' <> []) by discriminate.
      specialize (IH Hne'). lra.
Qed.

Lemma mean_above lo xs :
  xs <> [] ->
  Forall (fun v => lo < v) xs ->
  lo < mean xs.
Proof.
  intros Hne Hall. unfold mean.
  assert (Hpos : 0 < INR (length xs)).
  { apply lt_0_INR. destruct xs; [contradiction | simpl; lia]. }
  apply (Rmult_lt_reg_l (INR (length xs))); [exact Hpos|].
  replace (INR (length xs) * (sum xs / INR (length xs)))
    with (sum xs) by (field; lra).
  apply sum_above; assumption.
Qed.

(** X11: an arm raise whose averaged window holds only pairs of angles
    above 160 is judged correct. *)
Theorem arm_raise_steady_pose :
  forall fmt landmarks (ps : list (R * R)),
    Forall (fun p => 160 < fst p /\ 160 < snd p)
           (push ps (elbow_angles_of landmarks)) ->
    verify_exercise fmt (pose_found landmarks) "arm_raise"
                    (map pair_entry ps)
    = Ok (true, "Arms raised correctly"%string,
          map pair_entry (push ps (elbow_angles_of landmarks))).
Proof.
  intros fmt landmarks ps Hall.
  pose proof (verify_arm_raise fmt landmarks ps) as H. cbv zeta in H.
  rewrite H. clear H.
  set (ws := push ps (elbow_angles_of landmarks)) in *.
  assert (Hne : forall g : R * R -> R, map g ws <> []).
  { intros g Hnil. apply map_eq_nil in Hnil.
    exact (push_not_nil _ _ Hnil). }
  assert (H1 : 160 < mean (map fst ws)).
  { apply mean_above; [apply Hne|]. apply Forall_map.
    eapply Forall_impl; [|exact Hall]. intros p [Hp _]. exact Hp. }
  assert (H2 : 160 < mean (map snd ws)).
  { apply mean_above; [apply Hne|]. apply Forall_map.
    eapply Forall_impl; [|exact Hall]. intros p [_ Hp]. exact Hp. }
  assert (G1 : gt (mean (map fst ws)) 160 = true) by (apply gt_true; lra).
  assert (G2 : gt (mean (map snd ws)) 160 = true) by (apply gt_true; lra).
  rewrite G1, G2. reflexivity.
Qed.

Lemma arm_raise_steady_pose_example :
  verify_exercise format_blank (pose_found sample_landmarks) "arm_raise"
                  (map pair_entry [(170, 175)])
  = Ok (true, "Arms raised correctly"%string,
        map pair_entry (push [(170, 175)]
                             (elbow_angles_of sample_landmarks))).
Proof.
  apply arm_raise_steady_pose.
  change (push [(170, 175)] (elbow_angles_of sample_landmarks))
    with [(170, 175); elbow_angles_of sample_landmarks].
  rewrite sample_elbow_angles. repeat constructor; simpl; lra.
Defined.

(** X12: shoulder shrug with a pose present, on a history of pairs: the
    pair of ear-to-shoulder distances is pushed, each component averaged,
    and [is_correct] is true exactly when both averages are strictly below
    0.15; otherwise the feedback carries both averages with two digits
    after the point. *)
Theorem shoulder_shrug_verdict :
  forall fmt landmarks (ps : list (R * R)),
    let ws := push ps (ear_distances_of landmarks) in
    let avg_left := mean (map fst ws) in
    let avg_right := mean (map snd ws) in
    exists b fb,
      verify_exercise fmt (pose_found landmarks) "shoulder_shrug"
                      (map pair_entry ps)
      = Ok (b, fb, map pair_entry ws)
      /\ (b = true <-> avg_left < 15 / 100 /\ avg_right < 15 / 100)
      /\ (b = true -> fb = "Good shoulder shrug"%string)
      /\ (b = false ->
          fb = ("Raise shoulders higher (L: " ++ fmt 2%nat avg_left
                ++ ", R: " ++ fmt 2%nat avg_right ++ ")")%string).
Proof.
  intros fmt landmarks ps ws avg_left avg_right.
  pose proof (verify_shoulder_shrug fmt landmarks ps) as H. cbv zeta in H.
  fold ws avg_left avg_right in H. rewrite H. clear H.
  destruct (lt avg_left (15 / 100)) eqn:E1;
    destruct (lt avg_right (15 / 100)) eqn:E2;
    simpl andb; cbv iota;
    reflect_cmp;
    eexists _, _; (split; [reflexivity|]);
    repeat split; intros; try reflexivity; try discriminate;
    try lra;
    match goal with
    | H : _ /\ _ |- _ => destruct H; lra
    end.
Qed.

(** X13: with a pose present, an exercise name that is none of the five
    configured ones gets the verdict "Unknown exercise type" and leaves
    the history as it was. *)
Theorem verify_exercise_unknown_type :
  forall fmt landmarks (exercise_type : string) (d : deque measurement),
    ~ In exercise_type exercises ->
    verify_exercise fmt (pose_found landmarks) exercise_type d
    = Ok (false, "Unknown exercise type"%string, d).
Proof.
  intros fmt landmarks e d Hnot.
  unfold verify_exercise, pose_found. cbn [pose_landmarks].
  assert (Hne : forall k, In k exercises -> (e =? k)%string = false).
  { intros k Hk. apply String.eqb_neq. intros ->. exact (Hnot Hk). }
  rewrite !Hne by (simpl; tauto). reflexivity.
Qed.

Lemma verify_exercise_unknown_type_example :
  verify_exercise format_blank (pose_found sample_landmarks) "plank" []
  = Ok (false, "Unknown exercise type"%string, []).
Proof.
  apply verify_exercise_unknown_type.
  simpl. intros [H | [H | [H | [H | [H | []]]]]]; discriminate H.
Defined.

Lemma verify_exercise_cases fmt results e d v :
  verify_exercise fmt results e d = Ok v ->
  (history v = d /\ is_correct v = false)
  \/ (exists m, history v = push d m
                /\ pose_landmarks results <> None
                /\ In e ["arm_raise"; "squat"; "shoulder_shrug"]%string).
Proof.
  unfold verify_exercise.
  destruct (pose_landmarks results) as [landmarks|].
  2:{ intros H. injection H as <-. left. split; reflexivity. }
  destruct (e =? "arm_raise")%string eqn:E1.
  { apply String.eqb_eq in E1. subst e.
    match goal with
    | |- context [average item0 (push d ?m)] =>
      destruct (average item0 (push d m)) as [al|e0]; cbn [bind];
      [ destruct (average item1 (push d m)) as [ar|e1]; cbn [bind]
      | ];
      try discriminate;
      destruct (gt al 160 && gt ar 160);
      intros H; injection H as <-; right; exists m;
      (split; [reflexivity|]); (split; [discriminate|]); simpl; tauto
    end. }
  destruct (e =? "squat")%string eqn:E2.
  { apply String.eqb_eq in E2. subst e.
    match goal with
    | |- context [average as_number (push d ?m)] =>
      destruct (average as_number (push d m)) as [av|e0]; cbn [bind];
      try discriminate;
      destruct (lt 80 av && lt av 100); [|destruct (ge av 100)];
      intros H; injection H as <-; right; exists m;
      (split; [reflexivity|]); (split; [discriminate|]); simpl; tauto
    end. }
  destruct (e =? "shoulder_shrug")%string eqn:E3.
  { apply String.eqb_eq in E3. subst e.
    match goal with
    | |- context [average item0 (push d ?m)] =>
      destruct (average item0 (push d m)) as [al|e0]; cbn [bind];
      [ destruct (average item1 (push d m)) as [ar|e1]; cbn [bind]
      | ];
      try discriminate;
      destruct (lt al (15 / 100) && lt ar (15 / 100));
      intros H; injection H as <-; right; exists m;
      (split; [reflexivity|]); (split; [discriminate|]); simpl; tauto
    end. }
  destruct ((e =? "leg_raise")%string || (e =? "knee_extension")%string);
    intros H; injection H as <-; left; split; reflexivity.
Qed.

(** X14: whenever the rule set returns, the history it returns is either
    the one it was given, and then [is_correct] is false, or the given one
    with exactly one measurement pushed, which happens only with a pose
    present and for arm raise, squat or shoulder shrug; the rule set never
    clears or reorders the history. *)
Theorem verify_exercise_history_change :
  forall fmt results exercise_type (d : deque measurement) (v : verdict),
    verify_exercise fmt results exercise_type d = Ok v ->
    (history v = d /\ is_correct v = false)
    \/ (exists m, history v = push d m
                  /\ pose_landmarks results <> None
                  /\ In exercise_type
                        ["arm_raise"; "squat"; "shoulder_shrug"]%string).
Proof. intros. eapply verify_exercise_cases; eassumption. Qed.

Lemma verify_exercise_history_change_example :
  (history (false, "No pose detected"%string, [Scalar 90]) = [Scalar 90]
   /\ is_correct (false, "No pose detected"%string, [Scalar 90]) = false)
  \/ (exists m, history (false, "No pose detected"%string, [Scalar 90])
                = push [Scalar 90] m
                /\ pose_landmarks no_pose <> None
                /\ In "squat"%string
                      ["arm_raise"; "squat"; "shoulder_shrug"]%string).
Proof.
  apply (verify_exercise_history_change format_blank no_pose "squat"
           [Scalar 90] (false, "No pose detected"%string, [Scalar 90])).
  reflexivity.
Defined.

(** ** Counting over a run of verdicts *)

Lemma count_reps_balance correct n state :
  (2 * fst (count_reps correct (n, state))
   + armed_bit (snd (count_reps correct (n, state)))
   = 2 * n + armed_bit state + armed_bit correct)%nat.
Proof. destruct correct, state; simpl; lia. Qed.

Lemma count_all_cons v vs st :
  count_all (v :: vs) st = count_all vs (count_reps v st).
Proof. reflexivity. Qed.

Lemma count_all_balance verdicts :
  forall n state,
    (2 * fst (count_all verdicts (n, state))
     + armed_bit (snd (count_all verdicts (n, state)))
     = 2 * n + armed_bit state + correct_count verdicts)%nat.
Proof.
  induction verdicts as [|v vs IH]; intros n state.
  - unfold count_all, correct_count. simpl. lia.
  - rewrite count_all_cons.
    pose proof (count_reps_balance v n state) as Hstep.
    destruct (count_reps v (n, state)) as [n' state'].
    rewrite IH. simpl fst in Hstep. simpl snd in Hstep.
    unfold correct_count. simpl count_occ.
    destruct v; simpl in *;
      [destruct (bool_dec true true) | destruct (bool_dec false true)];
      try congruence; lia.
Qed.

(** X15: over any run of verdicts, twice the repetitions counted plus one
    for an armed counter grows by exactly the number of correct verdicts;
    from the initial state the count is half the number of correct
    verdicts, rounded down, and the counter is armed exactly when that
    number is odd. *)
Theorem count_all_is_half_the_correct_verdicts :
  (forall verdicts n state,
      (2 * fst (count_all verdicts (n, state))
       + armed_bit (snd (count_all verdicts (n, state)))
       = 2 * n + armed_bit state + correct_count verdicts)%nat)
  /\ (forall verdicts,
         fst (count_all verdicts (0%nat, false))
         = (correct_count verdicts / 2)%nat
         /\ snd (count_all verdicts (0%nat, false))
            = Nat.odd (correct_count verdicts)).
Proof.
  split; [apply count_all_balance|].
  intros verdicts.
  pose proof (count_all_balance verdicts 0 false) as H.
  destruct (count_all verdicts (0%nat, false)) as [n state].
  simpl fst in *. simpl snd in *. simpl armed_bit in H at 2.
  split.
  - apply (Nat.div_unique _ 2 n (armed_bit state)).
    + destruct state; simpl; lia.
    + lia.
  - destruct state; simpl in H.
    + symmetry. apply Nat.odd_spec. exists n. lia.
    + symmetry. apply Bool.not_true_is_false. intros Hodd.
      apply Nat.odd_spec in Hodd. destruct Hodd as [m Hm]. lia.
Qed.

(** ** The loop *)

Lemma iteration_history_bound fmt t s o :
  iteration fmt t s = Ok o ->
  (length (angle_history s) <= 10)%nat ->
  (length (angle_history (outcome_session o)) <= 10)%nat.
Proof.
  unfold iteration. intros H Hlen.
  destruct (frame t) as [results|].
  2:{ injection H as <-. exact Hlen. }
  destruct (exercise_at (current_exercise s)) as [e|err]; cbn [bind] in H;
    [|discriminate].
  destruct (verify_exercise fmt results e (angle_history s)) as [v|err] eqn:Hv;
    cbn [bind] in H; [|discriminate].
  assert (Hv' : (length (history v) <= 10)%nat).
  { destruct (verify_exercise_cases _ _ _ _ _ Hv) as [[-> _] | (m & -> & _)].
    - exact Hlen.
    - apply push_length_le, Hlen. }
  destruct (count_reps (is_correct v) (rep_count s, exercise_state s))
    as [reps state].
  destruct (pressed t); injection H as <-; cbn; try exact Hv'; lia.
Qed.

Lemma run_history_bound fmt ts :
  forall s s',
    run fmt ts s = Ok s' ->
    (length (angle_history s) <= 10)%nat ->
    (length (angle_history s') <= 10)%nat.
Proof.
  induction ts as [|t ts IH]; intros s s' H Hlen.
  - injection H as <-. exact Hlen.
  - simpl run in H.
    destruct (iteration fmt t s) as [o|err] eqn:Ho; cbn [bind] in H;
      [|discriminate].
    pose proof (iteration_history_bound _ _ _ _ Ho Hlen) as Hb.
    destruct o as [s1|s1]; cbn [outcome_session] in Hb.
    + exact (IH _ _ H Hb).
    + injection H as <-. exact Hb.
Qed.

(** X16: from the initial session the loop never raises, whatever frames
    and keys arrive: it ends in a session whose exercise index is below 5
    and whose history holds at most 10 entries. *)
Theorem run_from_start_is_safe :
  forall fmt (ts : list tick),
    exists s,
      run fmt ts initial_session = Ok s
      /\ (current_exercise s < 5)%nat
      /\ (length (angle_history s) <= 10)%nat.
Proof.
  intros fmt ts.
  destruct (run_ok fmt ts initial_session initial_session_ok)
    as (s & Hrun & (e & He & _)).
  exists s. split; [exact Hrun|]. split.
  - change 5%nat with (length exercises).
    apply nth_error_Some. rewrite He. discriminate.
  - apply (run_history_bound fmt ts initial_session s Hrun). simpl. lia.
Qed.




(** X18: pressing 'n' [n] times moves the exercise index [n] places round
    the list of five exercises, so five presses come back to the exercise
    they started from. *)
Theorem switch_exercise_cycles :
  forall (s : session) (n : nat),
    (current_exercise s < 5)%nat ->
    current_exercise (Nat.iter n switch_exercise s)
    = ((current_exercise s + n) mod 5)%nat
    /\ current_exercise (Nat.iter 5 switch_exercise s) = current_exercise s.
Proof.
  intros s n Hlt.
  assert (Hgen : forall k,
             current_exercise (Nat.iter k switch_exercise s)
             = ((current_exercise s + k) mod 5)%nat).
  { induction k as [|k IH].
    - change (Nat.iter 0 switch_exercise s) with s.
      rewrite Nat.add_0_r. symmetry. apply Nat.mod_small, Hlt.
    - change (Nat.iter (S k) switch_exercise s)
        with (switch_exercise (Nat.iter k switch_exercise s)).
      unfold switch_exercise at 1. cbn [current_exercise].
      rewrite IH. change (length exercises) with 5%nat.
      rewrite Nat.Div0.add_mod_idemp_l. f_equal. lia. }
  split; [apply Hgen|].
  rewrite Hgen.
  replace (current_exercise s + 5)%nat with (current_exercise s + 1 * 5)%nat
    by lia.
  rewrite Nat.Div0.mod_add. apply Nat.mod_small, Hlt.
Qed.

Lemma switch_exercise_cycles_example :
  current_exercise (Nat.iter 7 switch_exercise armed_session)
  = ((current_exercise armed_session + 7) mod 5)%nat
  /\ current_exercise (Nat.iter 5 switch_exercise armed_session)
     = current_exercise armed_session.
Proof. apply switch_exercise_cycles. simpl. lia. Defined.

(** X19: only the low byte of the key code decides: the loop quits exactly
    on codes that are 113 modulo 256 and switches exactly on codes that
    are 110 modulo 256, codes that differ by a multiple of 256 are treated
    alike, and the code -1 of "no key" does neither. *)
Theorem key_of_code_low_byte :
  forall code : Z,
    (key_of_code code = KeyQ <-> (code mod 256 = 113)%Z)
    /\ (key_of_code code = KeyN <-> (code mod 256 = 110)%Z)
    /\ (forall j : Z, key_of_code (code + j * 256) = key_of_code code)
    /\ key_of_code (-1) = KeyOther.
Proof.
  intros code.
  assert (Hland : forall c, Z.land c 255 = (c mod 256)%Z).
  { intros c. change 255%Z with (Z.ones 8).
    rewrite Z.land_ones by lia. reflexivity. }
  assert (Hdef : forall c,
             key_of_code c
             = if (c mod 256 =? 113)%Z then KeyQ
               else if (c mod 256 =? 110)%Z then KeyN else KeyOther).
  { intros c. unfold key_of_code. cbv zeta. rewrite Hland. reflexivity. }
  split; [|split; [|split]].
  - rewrite Hdef.
    destruct (code mod 256 =? 113)%Z eqn:E1.
    + apply Z.eqb_eq in E1. tauto.
    + apply Z.eqb_neq in E1.
      destruct (code mod 256 =? 110)%Z; split; intros; try discriminate;
        contradiction.
  - rewrite Hdef.
    destruct (code mod 256 =? 113)%Z eqn:E1.
    + apply Z.eqb_eq in E1. split; intros; [discriminate | lia].
    + destruct (code mod 256 =? 110)%Z eqn:E2.
      * apply Z.eqb_eq in E2. tauto.
      * apply Z.eqb_neq in E2. split; intros; [discriminate | contradiction].
  - intros j. rewrite !Hdef. rewrite Z.mod_add by lia. reflexivity.
  - reflexivity.
Qed.

Lemma iteration_stops fmt t s s' :
  frame t = None \/ pressed t = KeyQ ->
  iteration fmt t s <> Ok (Continue s').
Proof.
  intros Hstop. unfold iteration.
  destruct (frame t) as [results|]; [|discriminate].
  destruct Hstop as [Hf | Hq]; [discriminate|].
  destruct (exercise_at (current_exercise s)) as [e|err]; cbn [bind];
    [|discriminate].
  destruct (verify_exercise fmt results e (angle_history s)) as [v|err];
    cbn [bind]; [|discriminate].
  destruct (count_reps (is_correct v) (rep_count s, exercise_state s))
    as [reps state].
  rewrite Hq. discriminate.
Qed.

(** X20: the loop ends at the first failed read and at the first 'q':
    whatever frames and keys would follow have no effect on the
    result. *)
Theorem run_stops_at_break :
  forall fmt (before after : list tick) (t : tick) (s : session),
    frame t = None \/ pressed t = KeyQ ->
    run fmt (before ++ t :: after) s = run fmt (before ++ [t]) s.
Proof.
  intros fmt before after t s Hstop. revert s.
  induction before as [|t0 ts IH]; intros s.
  - simpl.
    pose proof (iteration_stops fmt t s) as Hno.
    destruct (iteration fmt t s) as [[s1|s1]|err]; cbn [bind].
    + exfalso. exact (Hno s1 Hstop eq_refl).
    + reflexivity.
    + reflexivity.
  - simpl.
    destruct (iteration fmt t0 s) as [[s1|s1]|err]; cbn [bind].
    + apply IH.
    + reflexivity.
    + reflexivity.
Qed.

Lemma run_stops_at_break_example :
  run format_blank
      ([] ++ {| frame := None; pressed := KeyOther |}
          :: [{| frame := Some no_pose; pressed := KeyN |}])
      armed_session
  = run format_blank ([] ++ [{| frame := None; pressed := KeyOther |}])
        armed_session.
Proof.
  apply run_stops_at_break. left. reflexivity.
Defined.

Lemma session_eta s :
  {| current_exercise := current_exercise s;
     rep_count := rep_count s;
     exercise_state := exercise_state s;
     angle_history := angle_history s |} = s.
Proof. destruct s. reflexivity. Qed.

Lemma iteration_idle fmt t s o :
  pressed t <> KeyN ->
  current_exercise s = 2%nat \/ current_exercise s = 4%nat
  \/ (forall r, frame t = Some r -> pose_landmarks r = None) ->
  iteration fmt t s = Ok o ->
  outcome_session o = s.
Proof.
  intros Hkey Hidle H. unfold iteration in H.
  destruct (frame t) as [results|] eqn:Hf.
  2:{ injection H as <-. reflexivity. }
  assert (Hv : forall e,
             exercise_at (current_exercise s) = Ok e ->
             exists fb,
               verify_exercise fmt results e (angle_history s)
               = Ok (false, fb, angle_history s)).
  { intros e He.
    destruct Hidle as [H2 | [H4 | Hnone]].
    - rewrite H2 in He. injection He as <-.
      destruct results as [[lm|]]; eexists; reflexivity.
    - rewrite H4 in He. injection He as <-.
      destruct results as [[lm|]]; eexists; reflexivity.
    - specialize (Hnone results eq_refl).
      destruct results as [[lm|]]; [discriminate | eexists; reflexivity]. }
  destruct (exercise_at (current_exercise s)) as [e|err]; cbn [bind] in H;
    [|discriminate].
  destruct (Hv e eq_refl) as [fb Hfb].
  rewrite Hfb in H. cbn [bind] in H.
  change (is_correct (false, fb, angle_history s)) with false in H.
  change (history (false, fb, angle_history s)) with (angle_history s) in H.
  change (count_reps false (rep_count s, exercise_state s))
    with (rep_count s, exercise_state s) in H.
  cbv iota beta in H. rewrite session_eta in H.
  destruct (pressed t); try contradiction; injection H as <-; reflexivity.
Qed.

(** X21: frames without a pose, and all frames while the exercise is leg
    raise or knee extension, leave the session exactly as it was: no
    repetition is ever counted for those two exercises. *)
Theorem run_idle_frames :
  forall fmt (ts : list tick) (s s' : session),
    Forall (fun t =>
              pressed t <> KeyN
              /\ (current_exercise s = 2%nat \/ current_exercise s = 4%nat
                  \/ (forall r, frame t = Some r -> pose_landmarks r = None)))
           ts ->
    run fmt ts s = Ok s' ->
    s' = s.
Proof.
  intros fmt ts s s' Hall. revert s'.
  induction Hall as [|t ts [Hkey Hidle] Hall IH]; intros s' Hrun.
  - injection Hrun as <-. reflexivity.
  - simpl run in Hrun.
    destruct (iteration fmt t s) as [o|err] eqn:Ho; cbn [bind] in Hrun;
      [|discriminate].
    pose proof (iteration_idle fmt t s o Hkey Hidle Ho) as Hsame.
    destruct o as [s1|s1]; cbn [outcome_session] in Hsame; subst s1.
    + apply IH, Hrun.
    + injection Hrun as <-. reflexivity.
Qed.

Lemma run_idle_frames_example :
  armed_session = armed_session.
Proof.
  apply (run_idle_frames format_blank
           [{| frame := Some (pose_found sample_landmarks);
               pressed := KeyOther |}]
           armed_session armed_session).
  - constructor; [|constructor].
    split; [discriminate|]. right. left. reflexivity.
  - reflexivity.
Defined.

Lemma dict_get_configured e :
  In e exercises -> exists text, dict_get e exercise_instructions = Some text.
Proof.
  simpl. intros [<-|[<-|[<-|[<-|[<-|[]]]]]]; eexists; reflexivity.
Qed.

(** X22: every session the loop reaches from the initial one has an
    instruction text to show: neither of the two subscripts of
    [exercise_instructions[exercises[current_exercise]]] ever fails, and a
    name has an instruction exactly when it is one of the exercises. *)
Theorem instruction_always_found :
  (forall fmt (ts : list tick) (s : session),
      run fmt ts initial_session = Ok s ->
      exists text, instruction_of s = Some text)
  /\ (forall e : string,
         In e exercises
         <-> exists text, dict_get e exercise_instructions = Some text).
Proof.
  split.
  - intros fmt ts s Hrun.
    destruct (run_ok fmt ts initial_session initial_session_ok)
      as (s0 & Hrun0 & (e & He & _)).
    rewrite Hrun in Hrun0. injection Hrun0 as <-.
    unfold instruction_of. rewrite He.
    apply dict_get_configured. eapply nth_error_In, He.
  - intros e. split; [apply dict_get_configured|].
    intros [text Hget]. unfold exercise_instructions in Hget.
    cbn [dict_get] in Hget.
    repeat match type of Hget with
           | (if (e =? ?k)%string then _ else _) = _ =>
             let E := fresh "E" in
             destruct (e =? k)%string eqn:E;
             [apply String.eqb_eq in E; subst e; simpl; tauto|]
           end.
    discriminate Hget.
Qed.
